(** * Nearby-Events-Web-App: the response-normalisation handlers of [main.py]

    The Flask application proxies three routes to the Ticketmaster discovery
    API and reshapes the vendor's JSON into a smaller dictionary.  This file
    embeds the three handlers ([search], [card1], [card2]) as Rocq functions
    over Python values and proves the properties the specification states
    about them.

    Conventions of the embedding:
    - a decoded JSON document is a Python value ([value]); dictionaries
      are finite maps with string keys ([gmap string value]), which is
      what Python's dictionary equality observes;
    - a raised exception is a value of [result] ([Raise e]); statements
      are sequenced with the error monad, left to right as Python
      evaluates them;
    - a [string] is a sequence of characters, each [ascii] standing for one
      character of the Python [str];
    - the outbound HTTP call is a function from the URL to the decoded
      payload, or to the exception [requests.get] / [response.json] raise;
    - [json.dumps(data)] and [json.loads(response_dump)] bind two names no
      statement reads, and cannot raise on a decoded payload: the handlers
      below start at the first statement that reads [data]. *)

From stdpp Require Import gmap strings list fin_maps pretty.

Set Warnings "-register-all".

Open Scope string_scope.

(** ** Python values and exceptions *)

(** What [response.json()] can produce.  A float is kept as the text
    [repr] prints for it, which is also what [str] prints. *)
Inductive value :=
  | VNone
  | VBool (b : bool)
  | VInt (n : Z)
  | VFloat (repr : string)
  | VStr (s : string)
  | VList (l : list value)
  | VDict (m : gmap string value).

(** The exceptions the handlers can raise; [UpstreamError] stands for
    whatever the HTTP call or the decoding of its body raises. *)
Inductive exn :=
  | KeyError
  | IndexError
  | TypeError
  | AttributeError
  | BadRequestKeyError
  | UpstreamError.

(** The outcome of a statement: a value, or a raised exception. *)
Inductive result (A : Type) :=
  | Ok (a : A)
  | Raise (e : exn).
Arguments Ok {A} a.
Arguments Raise {A} e.

#[export] Instance result_ret : MRet result := λ A a, Ok a.
#[export] Instance result_bind : MBind result := λ A B f r,
  match r with
  | Ok a => f a
  | Raise e => Raise e
  end.

(** ** Primitive operations *)

(** [v[k]] for a string literal [k]. *)
Definition getitem (v : value) (k : string) : result value :=
  match v with
  | VDict m => match m !! k with
               | Some x => Ok x
               | None => Raise KeyError
               end
  | _ => Raise TypeError
  end.

(** [v[i]] for a non-negative integer literal [i].  A dictionary decoded from
    JSON has string keys only, so an integer key is never found. *)
Definition getindex (v : value) (i : nat) : result value :=
  match v with
  | VList l => match l !! i with
               | Some x => Ok x
               | None => Raise IndexError
               end
  | VStr s => match String.get i s with
              | Some c => Ok (VStr (String c ""))
              | None => Raise IndexError
              end
  | VDict _ => Raise KeyError
  | _ => Raise TypeError
  end.

(** A subscript: a string literal or an integer literal. *)
Inductive key :=
  | K (s : string)
  | I (n : nat).
Coercion K : string >-> key.
Coercion I : nat >-> key.

Definition subscript (v : value) (k : key) : result value :=
  match k with
  | K s => getitem v s
  | I n => getindex v n
  end.

Declare Scope path_scope.
Delimit Scope path_scope with path.
Notation "[ ]" := (@nil key) : path_scope.
Notation "[ x ]" := (@cons key x nil) : path_scope.
Notation "[ x ; y ; .. ; z ]" :=
  (@cons key x (@cons key y .. (@cons key z nil) ..)) : path_scope.

(** A chain of subscripts [v[k1][k2]...], evaluated left to right. *)
Fixpoint path (v : value) (ks : list key) : result value :=
  match ks with
  | [] => Ok v
  | k :: ks => x ← subscript v k; path x ks
  end.
Arguments path v ks%_path.

(** [k in v.keys()] *)
Definition in_keys (k : string) (v : value) : result bool :=
  match v with
  | VDict m => Ok (bool_decide (is_Some (m !! k)))
  | _ => Raise AttributeError
  end.

(** [v == s] for a string literal [s]. *)
Definition eq_str (v : value) (s : string) : bool :=
  match v with
  | VStr t => bool_decide (t = s)
  | _ => false
  end.

(** [k in v] *)
Definition contains (k : string) (v : value) : result bool :=
  match v with
  | VDict m => Ok (bool_decide (is_Some (m !! k)))
  | VList l => Ok (existsb (λ x, eq_str x k) l)
  | VStr s => Ok (bool_decide (is_Some (String.index 0 k s)))
  | _ => Raise TypeError
  end.

(** [s + v] where [s] is a [str]. *)
Definition str_add (s : string) (v : value) : result string :=
  match v with
  | VStr t => Ok (s +:+ t)
  | _ => Raise TypeError
  end.

(** [s[0:n]] *)
Fixpoint slice_to (n : nat) (s : string) : string :=
  match n, s with
  | S n, String c s => String c (slice_to n s)
  | _, _ => ""
  end.

(** The values a [for] loop binds when it iterates over [v]: the elements of
    a list, the keys of a dictionary, the characters of a string.  The one
    loop of the program subscripts each value with a string, which raises
    on every key and every character, so the order of the keys is not
    observed. *)
Definition iterate (v : value) : result (list value) :=
  match v with
  | VList l => Ok l
  | VDict m => Ok (VStr <$> (map_to_list m).*1)
  | VStr s => Ok ((λ c, VStr (String c "")) <$> String.list_ascii_of_string s)
  | _ => Raise TypeError
  end.

(** The body of a loop that appends one result per element. *)
Fixpoint for_each {A B : Type} (f : A → result B) (l : list A) : result (list B) :=
  match l with
  | [] => Ok []
  | x :: l => y ← f x; ys ← for_each f l; Ok (y :: ys)
  end.

(** [request.args[k]]: the first value of the parameter, or a 400. *)
Fixpoint arg (args : list (string * string)) (k : string) : result string :=
  match args with
  | [] => Raise BadRequestKeyError
  | (k', v) :: args => if bool_decide (k' = k) then Ok v else arg args k
  end.

(** ** Module-level configuration *)

Definition key_ticketMaster : string := "".
Definition loc_key : string := "".
Definition google_api : string := "".
Definition api_url : string :=
  "https://app.ticketmaster.com/discovery/v2/events.json?apikey="
    +:+ key_ticketMaster +:+ "&".

(** ** [/get_search_results] *)

Module Search.

(** Lines 18-24: the outbound query. [str(distance)] is [distance], a [str]. *)
Definition query (args : list (string * string)) : result string :=
  keyword ← arg args "keyword";
  distance ← arg args "distance";
  segmentID ← arg args "segmentID";
  geoHash ← arg args "geoHash";
  let geoHash := slice_to 6 geoHash in
  Ok (api_url +:+ "keyword=" +:+ keyword +:+ "&segmentID=" +:+ segmentID
        +:+ "&radius=" +:+ distance +:+ "&unit=miles&geoPoint=" +:+ geoHash).

(** Lines 40-48: one pass of the loop body. *)
Definition summary (event : value) : result value :=
  let temp : gmap string value := ∅ in
  id ← path event ["id"];
  let temp := <["id" := id]> temp in
  date ← path event ["dates"; "start"; "localDate"];
  let temp := <["date" := date]> temp in
  start ← path event ["dates"; "start"];
  has_time ← in_keys "localTime" start;
  temp ← (if has_time : bool
          then t ← path event ["dates"; "start"; "localTime"];
               Ok (<["time" := t]> temp)
          else Ok temp);
  icon ← path event ["images"; 0; "url"];
  let temp := <["icon" := icon]> temp in
  name ← path event ["name"];
  let temp := <["event" := name]> temp in
  genre ← path event ["classifications"; 0; "segment"; "name"];
  let temp := <["genre" := genre]> temp in
  venue ← path event ["_embedded"; "venues"; 0; "name"];
  let temp := <["venue" := venue]> temp in
  Ok (VDict temp).

(** Lines 30-55: the reshaping of the decoded payload.  Line 32 binds
    [size], which nothing reads, but the two subscripts are evaluated. *)
Definition reshape (data : value) : result value :=
  size ← path data ["page"; "size"];
  has ← in_keys "_embedded" data;
  if has : bool then
    data2 ← path data ["_embedded"; "events"];
    events ← iterate data2;
    temp_list ← for_each summary events;
    Ok (VDict (<["events" := VList temp_list]> ∅))
  else
    Ok (VDict (<["events" := VInt 0]> ∅)).

Definition search (vendor : string → result value)
    (args : list (string * string)) : result value :=
  stri ← query args;
  data ← vendor stri;
  reshape data.

End Search.

(** ** [/get_card1] *)

Module Card1.

Section Handler.

(** [str] of a list or a dictionary prints its [repr], which this
    development does not spell out: it is a parameter of the handler. *)
Variable repr_container : value → string.

(** [str(v)] *)
Definition str (v : value) : string :=
  match v with
  | VNone => "None"
  | VBool true => "True"
  | VBool false => "False"
  | VInt n => pretty n
  | VFloat r => r
  | VStr s => s
  | VList _ | VDict _ => repr_container v
  end.

(** Line 60: the outbound query. *)
Definition query (args : list (string * string)) : result string :=
  id ← arg args "id";
  Ok ("https://app.ticketmaster.com/discovery/v2/events/" +:+ id
        +:+ "?apikey=" +:+ key_ticketMaster +:+ "&").

(** The condition of the [if] statements of lines 89-97:
    [level in data['classifications'][0].keys() and
     data['classifications'][0][level]['name'] != "Undefined"]. *)
Definition level_included (data : value) (level : string) : result bool :=
  c ← path data ["classifications"; 0];
  has ← in_keys level c;
  if has : bool then
    name ← path data ["classifications"; 0; K level; "name"];
    Ok (negb (eq_str name "Undefined"))
  else Ok false.

(** Lines 88-98: the composite genre string. *)
Definition genre (data : value) : result string :=
  let g := "" in
  c ← level_included data "segment";
  g ← (if c : bool
       then name ← path data ["classifications"; 0; "segment"; "name"];
            str_add g name
       else Ok g);
  c ← level_included data "genre";
  g ← (if c : bool
       then name ← path data ["classifications"; 0; "genre"; "name"];
            t ← str_add " | " name; Ok (g +:+ t)
       else Ok g);
  c ← level_included data "subGenre";
  g ← (if c : bool
       then name ← path data ["classifications"; 0; "subGenre"; "name"];
            t ← str_add " | " name; Ok (g +:+ t)
       else Ok g);
  c ← level_included data "type";
  g ← (if c : bool
       then name ← path data ["classifications"; 0; "type"; "name"];
            t ← str_add " | " name; Ok (g +:+ t)
       else Ok g);
  c ← level_included data "subType";
  g ← (if c : bool
       then name ← path data ["classifications"; 0; "subType"; "name"];
            t ← str_add " | " name; Ok (g +:+ t)
       else Ok g);
  Ok g.

(** Lines 71-110: the event detail, the dictionary [ret]. *)
Definition detail (data : value) : result (gmap string value) :=
  let ret : gmap string value := ∅ in
  title ← path data ["name"];
  let ret := <["title" := title]> ret in
  date ← path data ["dates"; "start"; "localDate"];
  let ret := <["date" := date]> ret in
  start ← path data ["dates"; "start"];
  has_time ← in_keys "localTime" start;
  ret ← (if has_time : bool
         then t ← path data ["dates"; "start"; "localTime"];
              Ok (<["time" := t]> ret)
         else Ok ret);
  embedded ← path data ["_embedded"];
  has_attractions ← in_keys "attractions" embedded;
  ret ← (if has_attractions : bool
         then a ← path data ["_embedded"; "attractions"; 0; "name"];
              Ok (<["artist_team" := a]> ret)
         else Ok ret);
  url ← path data ["url"];
  let ret := <["url" := url]> ret in
  venue ← path data ["_embedded"; "venues"; 0; "name"];
  let ret := <["venue" := venue]> ret in
  g ← genre data;
  let ret := <["genre" := VStr g]> ret in
  has_prices ← in_keys "priceranges" data;
  ret ← (if has_prices : bool
         then lo ← path data ["priceRanges"; 0; "min"];
              hi ← path data ["priceRanges"; 0; "max"];
              currency ← path data ["priceRanges"; 0; "currency"];
              p ← str_add (str lo +:+ "-" +:+ str hi +:+ " ") currency;
              Ok (<["price_ranges" := VStr p]> ret)
         else Ok ret);
  status ← path data ["dates"; "status"; "code"];
  let ret := <["ticket_status" := status]> ret in
  buy ← path data ["url"];
  let ret := <["buy_ticket_at" := buy]> ret in
  has_seatmap ← in_keys "seatmap" data;
  ret ← (if has_seatmap : bool
         then m ← path data ["seatmap"; "staticUrl"];
              Ok (<["seat_map" := m]> ret)
         else Ok ret);
  Ok ret.

(** Lines 68-116.  A Python function that ends without [return] yields
    [None]. *)
Definition reshape (data : value) : result value :=
  has ← in_keys "name" data;
  if has : bool then
    ret ← detail data;
    let temp_list := [VDict ret] in
    let t := <["card1" := VList temp_list]> ∅ in
    Ok (VDict t)
  else Ok VNone.

Definition card1 (vendor : string → result value)
    (args : list (string * string)) : result value :=
  s ← query args;
  data ← vendor s;
  reshape data.

End Handler.

End Card1.

(** ** [/get_card2] *)

Module Card2.

(** Line 121: the outbound query. *)
Definition query (args : list (string * string)) : result string :=
  keyword ← arg args "keyword";
  Ok ("https://app.ticketmaster.com/discovery/v2/venues?apikey="
        +:+ key_ticketMaster +:+ "&keyword=" +:+ keyword).

(** Lines 126-161. *)
Definition reshape (data : value) : result value :=
  has ← in_keys "_embedded" data;
  if has : bool then
    let ret : gmap string value := ∅ in
    name ← path data ["_embedded"; "venues"; 0; "name"];
    let ret := <["venue" := name]> ret in
    venue ← path data ["_embedded"; "venues"; 0];
    has_images ← in_keys "images" venue;
    ret ← (if has_images : bool
           then logo ← path data ["_embedded"; "venues"; 0; "images"; 0; "url"];
                Ok (<["logo" := logo]> ret)
           else Ok (<["logo" := VStr "nologo"]> ret));
    venue ← path data ["_embedded"; "venues"; 0];
    has_address ← in_keys "address" venue;
    ret ← (if has_address : bool
           then line1 ← path data ["_embedded"; "venues"; 0; "address"; "line1"];
                Ok (<["address" := line1]> ret)
           else Ok ret);
    venue ← path data ["_embedded"; "venues"; 0];
    has_city ← contains "city" venue;
    ret ← (if has_city : bool
           then city ← path data ["_embedded"; "venues"; 0; "city"; "name"];
                Ok (<["city" := city]> ret)
           else Ok ret);
    venue ← path data ["_embedded"; "venues"; 0];
    has_state ← in_keys "state" venue;
    has_code ← (if has_state : bool
                then state ← path data ["_embedded"; "venues"; 0; "state"];
                     in_keys "stateCode" state
                else Ok false);
    ret ← (if has_code : bool
           then code ← path data ["_embedded"; "venues"; 0; "state"; "stateCode"];
                Ok (<["stateCode" := code]> ret)
           else Ok ret);
    venue ← path data ["_embedded"; "venues"; 0];
    has_postal ← in_keys "postalCode" venue;
    ret ← (if has_postal : bool
           then code ← path data ["_embedded"; "venues"; 0; "postalCode"];
                Ok (<["postal_code" := code]> ret)
           else Ok ret);
    venue ← path data ["_embedded"; "venues"; 0];
    has_url ← in_keys "url" venue;
    ret ← (if has_url : bool
           then url ← path data ["_embedded"; "venues"; 0; "url"];
                Ok (<["url" := url]> ret)
           else Ok ret);
    v ← getitem (VDict ret) "venue";
    map ← str_add ("https://www.google.com/maps/search/?api=" +:+ google_api
                     +:+ "&query=") v;
    let ret := <["map" := VStr map]> ret in
    Ok (VDict ret)
  else Ok VNone.

Definition card2 (vendor : string → result value)
    (args : list (string * string)) : result value :=
  s ← query args;
  data ← vendor s;
  reshape data.

End Card2.

(** The three routes, and the reshaping each applies to the vendor's payload. *)
Inductive route :=
  | get_search_results
  | get_card1
  | get_card2.

Definition reshape (repr : value → string) (r : route) (data : value) : result value :=
  match r with
  | get_search_results => Search.reshape data
  | get_card1 => Card1.reshape repr data
  | get_card2 => Card2.reshape data
  end.

(** ** The vocabulary of the specification *)

(** The statement ran to its end without raising. *)
Definition is_ok {A : Type} (r : result A) : Prop := ∃ a, r = Ok a.

(** The nested fields the loop body reads without a guard. *)
Definition event_complete (event : value) : Prop :=
  is_ok (path event ["id"]) ∧
  is_ok (path event ["dates"; "start"; "localDate"]) ∧
  is_ok (path event ["images"; 0; "url"]) ∧
  is_ok (path event ["name"]) ∧
  is_ok (path event ["classifications"; 0; "segment"; "name"]) ∧
  is_ok (path event ["_embedded"; "venues"; 0; "name"]).

(** The summary agrees with the vendor's event on [id], [date] and [event]. *)
Definition summary_matches (event summary : value) : Prop :=
  path summary ["id"] = path event ["id"] ∧
  path summary ["date"] = path event ["dates"; "start"; "localDate"] ∧
  path summary ["event"] = path event ["name"].

(** The name of a classification level, when the level is present and its
    name is a string other than ["Undefined"]. *)
Definition level_name (data : value) (level : string) : option string :=
  match path data ["classifications"; 0; K level; "name"] with
  | Ok (VStr name) => if bool_decide (name = "Undefined") then None else Some name
  | _ => None
  end.

(** What a level adds to the genre string behind the separator [sep]. *)
Definition level_part (data : value) (sep level : string) : string :=
  from_option (λ name, sep +:+ name) "" (level_name data level).

(** The genre string of [card1] in closed form: the segment carries no
    separator, every later level carries its own. *)
Definition genre_parts (data : value) : string :=
  level_part data "" "segment" +:+ level_part data " | " "genre"
    +:+ level_part data " | " "subGenre" +:+ level_part data " | " "type"
    +:+ level_part data " | " "subType".

(** The specification's wording: the names of the included levels, in
    order, joined with the separator. *)
Fixpoint join (sep : string) (names : list string) : string :=
  match names with
  | [] => ""
  | [name] => name
  | name :: names => name +:+ sep +:+ join sep names
  end.

Definition spec_genre (data : value) : string :=
  join " | " (omap (level_name data)
                ["segment"; "genre"; "subGenre"; "type"; "subType"]).

(** Every field of the dictionary satisfies [sourced]. *)
Definition all_fields (sourced : string → value → Prop)
    (ret : gmap string value) : Prop :=
  ∀ k v, ret !! k = Some v → sourced k v.

(** The field is a copy of the vendor's value at the path the table gives. *)
Definition copied (sources : list (string * list key)) (data : value)
    (k : string) (v : value) : Prop :=
  ∃ p, (k, p) ∈ sources ∧ path data p = Ok v.

(** The vendor path behind each field of an event summary, of an event
    detail and of a venue detail. *)
Definition summary_sources : list (string * list key) :=
  [("id", ["id"]%path);
   ("date", ["dates"; "start"; "localDate"]%path);
   ("time", ["dates"; "start"; "localTime"]%path);
   ("icon", ["images"; 0; "url"]%path);
   ("event", ["name"]%path);
   ("genre", ["classifications"; 0; "segment"; "name"]%path);
   ("venue", ["_embedded"; "venues"; 0; "name"]%path)].

Definition detail_sources : list (string * list key) :=
  [("title", ["name"]%path);
   ("date", ["dates"; "start"; "localDate"]%path);
   ("time", ["dates"; "start"; "localTime"]%path);
   ("artist_team", ["_embedded"; "attractions"; 0; "name"]%path);
   ("url", ["url"]%path);
   ("venue", ["_embedded"; "venues"; 0; "name"]%path);
   ("ticket_status", ["dates"; "status"; "code"]%path);
   ("buy_ticket_at", ["url"]%path);
   ("seat_map", ["seatmap"; "staticUrl"]%path)].

Definition venue_sources : list (string * list key) :=
  [("venue", ["_embedded"; "venues"; 0; "name"]%path);
   ("logo", ["_embedded"; "venues"; 0; "images"; 0; "url"]%path);
   ("address", ["_embedded"; "venues"; 0; "address"; "line1"]%path);
   ("city", ["_embedded"; "venues"; 0; "city"; "name"]%path);
   ("stateCode", ["_embedded"; "venues"; 0; "state"; "stateCode"]%path);
   ("postal_code", ["_embedded"; "venues"; 0; "postalCode"]%path);
   ("url", ["_embedded"; "venues"; 0; "url"]%path)].

(** A field of an event detail: a copy, the composite genre, or the price
    range formatted from the first entry of ['priceRanges']. *)
Definition detail_field (repr : value → string) (data : value)
    (k : string) (v : value) : Prop :=
  copied detail_sources data k v ∨
  (k = "genre" ∧ v = VStr (genre_parts data)) ∨
  (k = "price_ranges" ∧
   ∃ lo hi currency,
     path data ["priceRanges"; 0; "min"] = Ok lo ∧
     path data ["priceRanges"; 0; "max"] = Ok hi ∧
     path data ["priceRanges"; 0; "currency"] = Ok (VStr currency) ∧
     v = VStr (Card1.str repr lo +:+ "-" +:+ Card1.str repr hi +:+ " " +:+ currency)).

(** A field of a venue detail: a copy, the default logo of a venue without
    ['images'], or the map link derived from the venue's name. *)
Definition venue_field (data : value) (k : string) (v : value) : Prop :=
  copied venue_sources data k v ∨
  (k = "logo" ∧ v = VStr "nologo" ∧
   ∃ venue, path data ["_embedded"; "venues"; 0] = Ok (VDict venue) ∧
            venue !! "images" = None) ∨
  (k = "map" ∧
   ∃ name, path data ["_embedded"; "venues"; 0; "name"] = Ok (VStr name) ∧
           v = VStr ("https://www.google.com/maps/search/?api=" +:+ google_api
                       +:+ "&query=" +:+ name)).

(** What a response of each route is made of. *)
Definition fields_sourced (repr : value → string) (r : route)
    (data response : value) : Prop :=
  match r with
  | get_search_results =>
      response = VDict (<["events" := VInt 0]> ∅) ∨
      ∃ data2 events summaries,
        path data ["_embedded"; "events"] = Ok data2 ∧
        iterate data2 = Ok events ∧
        response = VDict (<["events" := VList summaries]> ∅) ∧
        Forall2 (λ event s,
          ∃ temp, s = VDict temp ∧ all_fields (copied summary_sources event) temp)
          events summaries
  | get_card1 =>
      response = VNone ∨
      ∃ ret, response = VDict (<["card1" := VList [VDict ret]]> ∅) ∧
             all_fields (detail_field repr data) ret
  | get_card2 =>
      response = VNone ∨
      ∃ ret, response = VDict ret ∧ all_fields (venue_field data) ret
  end.

(** ** Payloads used as examples *)

(** A search response with no results. *)
Definition empty_page : value :=
  VDict (<["page" := VDict (<["size" := VInt 20]> ∅)]> ∅).

(** A complete event and a payload that carries it but no ['page']. *)
Definition sample_event : value :=
  VDict (<["id" := VStr "G5vYZ9"]>
        (<["name" := VStr "Jazz Night"]>
        (<["dates" := VDict (<["start" :=
              VDict (<["localDate" := VStr "2023-03-04"]> ∅)]> ∅)]>
        (<["images" := VList [VDict (<["url" := VStr "https://img/1.jpg"]> ∅)]]>
        (<["classifications" := VList [VDict (<["segment" :=
              VDict (<["name" := VStr "Music"]> ∅)]> ∅)]]>
        (<["_embedded" := VDict (<["venues" :=
              VList [VDict (<["name" := VStr "The Forum"]> ∅)]]> ∅)]> ∅)))))).

Definition events_without_page : value :=
  VDict (<["_embedded" := VDict (<["events" := VList [sample_event]]> ∅)]> ∅).

Definition events_with_page : value :=
  VDict (<["page" := VDict (<["size" := VInt 20]> ∅)]>
        (<["_embedded" := VDict (<["events" := VList [sample_event]]> ∅)]> ∅)).

(** An event with every field [card1] reads without a guard, around a
    given first classification. *)
Definition base_event (classification : gmap string value) : gmap string value :=
  <["name" := VStr "Jazz Night"]>
  (<["url" := VStr "https://tm/e/G5vYZ9"]>
  (<["dates" := VDict (<["start" := VDict (<["localDate" := VStr "2023-03-04"]> ∅)]>
                      (<["status" := VDict (<["code" := VStr "onsale"]> ∅)]> ∅))]>
  (<["_embedded" := VDict (<["venues" :=
        VList [VDict (<["name" := VStr "The Forum"]> ∅)]]> ∅)]>
  (<["classifications" := VList [VDict classification]]> ∅)))).

(** A classification level with the given name. *)
Definition level (name : string) : value := VDict (<["name" := VStr name]> ∅).

(** The price range [{min: 20, max: 150, currency: "USD"}]. *)
Definition usd_20_150 : value :=
  VDict (<["min" := VInt 20]> (<["max" := VInt 150]> (<["currency" := VStr "USD"]> ∅))).

(** The vendor's spelling of the key, [priceRanges]. *)
Definition priced_event : value :=
  VDict (<["priceRanges" := VList [usd_20_150]]>
           (base_event (<["segment" := level "Music"]> ∅))).

(** Both spellings at once. *)
Definition doubly_priced_event : value :=
  VDict (<["priceranges" := VList []]>
        (<["priceRanges" := VList [usd_20_150]]>
           (base_event (<["segment" := level "Music"]> ∅)))).

(** Segment ["Music"], genre ["Undefined"], subGenre ["Rock"]. *)
Definition music_rock_event : value :=
  VDict (base_event (<["segment" := level "Music"]>
                    (<["genre" := level "Undefined"]>
                    (<["subGenre" := level "Rock"]> ∅)))).

(** Segment ["Undefined"], genre ["Rock"]. *)
Definition rock_event : value :=
  VDict (base_event (<["segment" := level "Undefined"]>
                    (<["genre" := level "Rock"]> ∅))).

(** A venue-search response whose only venue is [venue]. *)
Definition venue_payload (venue : gmap string value) : value :=
  VDict (<["_embedded" := VDict (<["venues" := VList [VDict venue]]> ∅)]> ∅).

(** A venue without ['images']. *)
Definition plain_venue : gmap string value :=
  <["name" := VStr "The Forum"]>
  (<["city" := VDict (<["name" := VStr "Inglewood"]> ∅)]>
  (<["postalCode" := VStr "90305"]> ∅)).

(** ** Requests, and further payloads *)

(** The query each route sends, the parameters it requires, and the handler. *)
Definition query (r : route) (args : list (string * string)) : result string :=
  match r with
  | get_search_results => Search.query args
  | get_card1 => Card1.query args
  | get_card2 => Card2.query args
  end.

Definition handle (repr : value → string) (r : route)
    (vendor : string → result value) (args : list (string * string)) : result value :=
  match r with
  | get_search_results => Search.search vendor args
  | get_card1 => Card1.card1 repr vendor args
  | get_card2 => Card2.card2 vendor args
  end.

Definition required (r : route) : list string :=
  match r with
  | get_search_results => ["keyword"; "distance"; "segmentID"; "geoHash"]
  | get_card1 => ["id"]
  | get_card2 => ["keyword"]
  end.

(** An event with an [id] and nothing else. *)
Definition incomplete_event : value := VDict (<["id" := VStr "x"]> ∅).

(** A search response that carries [events] under ['_embedded']. *)
Definition page_with (events : value) : value :=
  VDict (<["page" := VDict (<["size" := VInt 20]> ∅)]>
        (<["_embedded" := VDict (<["events" := events]> ∅)]> ∅)).

(** The summary of [sample_event]. *)
Definition sample_summary : gmap string value :=
  <["id" := VStr "G5vYZ9"]>
  (<["date" := VStr "2023-03-04"]>
  (<["icon" := VStr "https://img/1.jpg"]>
  (<["event" := VStr "Jazz Night"]>
  (<["genre" := VStr "Music"]>
  (<["venue" := VStr "The Forum"]> ∅))))).

(** The five classification levels, in the order [card1] reads them. *)
Definition levels : list string :=
  ["segment"; "genre"; "subGenre"; "type"; "subType"].

(** The lower-case key alone. *)
Definition lower_case_priced_event : value :=
  VDict (<["priceranges" := VList [usd_20_150]]>
           (base_event (<["segment" := level "Music"]> ∅))).

(** The fields [card2] reads behind a guard on the venue's key alone: the
    key, and the subscripts applied to its value. *)
Definition venue_guarded : list (string * list key) :=
  [("images", [0; "url"]%path);
   ("address", ["line1"]%path);
   ("city", ["name"]%path)].

(** A venue with a state that has no code, and one with an address that
    has no first line. *)
Definition stateless_venue : gmap string value :=
  <["state" := VDict (<["name" := VStr "California"]> ∅)]> plain_venue.

Definition unaddressed_venue : gmap string value :=
  <["address" := VDict ∅]> plain_venue.

(** ** Reasoning about the error monad *)

Lemma bind_Ok {A B : Type} (f : A → result B) (r : result A) (b : B) :
  r ≫= f = Ok b ↔ ∃ a, r = Ok a ∧ f a = Ok b.
Proof.
  destruct r as [a|e]; simpl; split.
  - intros H. by exists a.
  - by intros (a' & [= ->] & H).
  - intros H. discriminate H.
  - by intros (a' & [=] & _).
Qed.

(** Inversion of a run of the error monad that ended in [Ok]. *)
Ltac invert_run :=
  repeat match goal with
  | H : (let _ := _ in _) = Ok _ |- _ => cbv zeta in H
  | H : _ ≫= _ = Ok _ |- _ => apply bind_Ok in H as (? & ? & H)
  | H : (if ?b then _ else _) = Ok _ |- _ => destruct b eqn:?
  | H : Ok _ = Ok _ |- _ => injection H as H; try discriminate H
  | H : Raise _ = Ok _ |- _ => discriminate H
  end.

Lemma for_each_length {A B : Type} (f : A → result B) (l : list A) (r : list B) :
  for_each f l = Ok r → length r = length l.
Proof.
  revert r. induction l as [|x l IH]; intros r; simpl.
  - by intros [= <-].
  - intros (y & _ & (ys & Hys & [= <-])%bind_Ok)%bind_Ok.
    simpl. by rewrite (IH ys).
Qed.

Lemma for_each_lookup {A B : Type} (f : A → result B) (l : list A) (r : list B)
    (i : nat) (x : A) :
  for_each f l = Ok r → l !! i = Some x →
  ∃ y, r !! i = Some y ∧ f x = Ok y.
Proof.
  revert r i. induction l as [|x' l IH]; intros r i; simpl; [done|].
  intros (y & Hy & (ys & Hys & [= <-])%bind_Ok)%bind_Ok.
  destruct i as [|i]; simpl.
  - intros [= ->]. by exists y.
  - intros Hi. by apply IH.
Qed.

Lemma for_each_total {A B : Type} (f : A → result B) (l : list A) :
  Forall (λ x, is_ok (f x)) l → is_ok (for_each f l).
Proof.
  induction 1 as [|x l [y Hy] _ [ys Hys]]; simpl.
  - by eexists.
  - rewrite Hy; simpl. rewrite Hys; simpl. by eexists.
Qed.

(** ** Subscripts, membership tests and strings *)

Lemma path_app (v : value) (p q : list key) :
  path v (p ++ q)%list = x ← path v p; path x q.
Proof.
  revert v. induction p as [|k p IH]; intros v; simpl; [done|].
  destruct (subscript v k) as [x|e]; simpl; [apply IH | done].
Qed.

Lemma path_snoc_Ok (v x : value) (p : list key) (k : string) :
  path v (p ++ [K k])%list = Ok x ↔
  ∃ m, path v p = Ok (VDict m) ∧ m !! k = Some x.
Proof.
  rewrite path_app, bind_Ok. split.
  - intros (d & Hd & Hk). simpl in Hk.
    destruct d as [| | | | | |m]; simpl in Hk; try discriminate Hk.
    exists m. destruct (m !! k) as [y|]; simpl in Hk; [|discriminate Hk].
    by injection Hk as ->.
  - intros (m & Hm & Hk). exists (VDict m). split; [done|].
    simpl. by rewrite Hk.
Qed.

Lemma path_single_Ok (v x : value) (k : string) :
  path v [K k] = Ok x ↔ ∃ m, v = VDict m ∧ m !! k = Some x.
Proof.
  rewrite (path_snoc_Ok v x [] k). unfold path. split.
  - intros (m & [= ->] & Hk). eauto.
  - intros (m & -> & Hk). eauto.
Qed.

Lemma path_head_in_keys (data x : value) (k : string) (p : list key) :
  path data (K k :: p) = Ok x → in_keys k data = Ok true.
Proof.
  change (K k :: p) with ([K k]%path ++ p)%list. rewrite path_app.
  intros (y & (m & -> & Hk)%path_single_Ok & _)%bind_Ok.
  simpl. by rewrite Hk.
Qed.

(** From here on a chain of subscripts is rewritten as a whole. *)
Arguments path : simpl never.

Lemma in_keys_Ok (k : string) (v : value) (b : bool) :
  in_keys k v = Ok b ↔ ∃ m, v = VDict m ∧ b = bool_decide (is_Some (m !! k)).
Proof.
  destruct v as [| | | | | |m]; simpl.
  1-6: split; [intros [=] | intros (m' & [=] & _)].
  split.
  - intros [= <-]. by eexists.
  - by intros (m' & [= <-] & ->).
Qed.

Lemma in_keys_false (k : string) (v : value) :
  in_keys k v = Ok false → ∃ m, v = VDict m ∧ m !! k = None.
Proof.
  intros (m & -> & Hk)%in_keys_Ok. exists m. split; [done|].
  symmetry in Hk. apply bool_decide_eq_false in Hk.
  destruct (m !! k) as [x|] eqn:Hx; [|done]. destruct Hk. by exists x.
Qed.

Lemma eq_str_true (v : value) (s : string) : eq_str v s = true ↔ v = VStr s.
Proof.
  destruct v as [| | | |t| |]; simpl.
  5: { rewrite bool_decide_eq_true. split; [by intros -> | by intros [= ->]]. }
  all: split; intros [=].
Qed.

Lemma str_add_Ok (s t : string) (v : value) :
  str_add s v = Ok t ↔ ∃ u, v = VStr u ∧ t = s +:+ u.
Proof.
  destruct v as [| | | |u| |]; simpl.
  5: { split; [intros [= <-]; by eexists | by intros (u' & [= <-] & ->)]. }
  all: split; [intros [=] | intros (u' & [=] & _)].
Qed.

Lemma append_cons (c : Ascii.ascii) (s t : string) :
  String c s +:+ t = String c (s +:+ t).
Proof. reflexivity. Qed.

Lemma append_nil_r (s : string) : s +:+ "" = s.
Proof. induction s as [|c s IH]; [done|]. by rewrite append_cons, IH. Qed.

Lemma append_assoc (s t u : string) : (s +:+ t) +:+ u = s +:+ t +:+ u.
Proof. induction s as [|c s IH]; [done|]. by rewrite !append_cons, IH. Qed.

Lemma slice_to_length (n : nat) (s : string) :
  String.length (slice_to n s) = n `min` String.length s.
Proof.
  revert s. induction n as [|n IH]; intros [|c s]; simpl; try done.
  by rewrite IH.
Qed.

Lemma slice_to_prefix (n : nat) (s : string) :
  ∃ rest, s = slice_to n s +:+ rest.
Proof.
  revert s. induction n as [|n IH]; intros [|c s]; simpl;
    try (by eexists).
  destruct (IH s) as [rest Hrest]. exists rest. rewrite append_cons. by f_equal.
Qed.

Lemma slice_to_short (n : nat) (s : string) :
  (String.length s ≤ n)%nat → slice_to n s = s.
Proof.
  revert s. induction n as [|n IH]; intros [|c s]; simpl; try done.
  - lia.
  - intros H. rewrite IH; [done | lia].
Qed.

Example getindex_str : getindex (VStr "abc") 0 = Ok (VStr "a").
Proof. reflexivity. Qed.

Example getindex_dict (m : gmap string value) : getindex (VDict m) 0 = Raise KeyError.
Proof. reflexivity. Qed.

Example getitem_list : getitem (VList [VInt 1]) "page" = Raise TypeError.
Proof. reflexivity. Qed.

Example contains_substring : contains "city" (VStr "velocity") = Ok true.
Proof. reflexivity. Qed.

Example contains_element :
  contains "city" (VList [VInt 1; VStr "city"]) = Ok true.
Proof. reflexivity. Qed.

Example contains_none : contains "city" VNone = Raise TypeError.
Proof. reflexivity. Qed.

Example iterate_dict :
  iterate (VDict (<["a" := VInt 1]> ∅)) = Ok [VStr "a"].
Proof. reflexivity. Qed.

Example iterate_str : iterate (VStr "ab") = Ok [VStr "a"; VStr "b"].
Proof. reflexivity. Qed.

Example slice_to_six : slice_to 6 "9q5cs1xyz" = "9q5cs1".
Proof. reflexivity. Qed.

(** ** A handler is its query, the vendor's answer and the reshaping *)

Lemma search_reshapes vendor args stri data :
  Search.query args = Ok stri → vendor stri = Ok data →
  Search.search vendor args = Search.reshape data.
Proof. intros Hq Hv. unfold Search.search. rewrite Hq. simpl. by rewrite Hv. Qed.

Lemma card1_reshapes repr vendor args s data :
  Card1.query args = Ok s → vendor s = Ok data →
  Card1.card1 repr vendor args = Card1.reshape repr data.
Proof. intros Hq Hv. unfold Card1.card1. rewrite Hq. simpl. by rewrite Hv. Qed.

Lemma card2_reshapes vendor args s data :
  Card2.query args = Ok s → vendor s = Ok data →
  Card2.card2 vendor args = Card2.reshape data.
Proof. intros Hq Hv. unfold Card2.card2. rewrite Hq. simpl. by rewrite Hv. Qed.

(** ** The search handler *)

(** C10: the search handler reads [data['page']['size']] before it tests for
    ['_embedded'], so a payload without a ['page'] object that has the key
    ['size'] raises, whether or not it has ['_embedded']: no such payload
    reaches the [{'events': 0}] answer or any other. *)
Theorem search_reads_page_size_first (data : value) :
  ¬ is_ok (path data ["page"; "size"]) →
  ∃ e, (e = KeyError ∨ e = TypeError) ∧ Search.reshape data = Raise e.
Proof.
  intros Hpage. unfold Search.reshape.
  destruct (path data ["page"; "size"]) as [size|e] eqn:Hsize.
  { destruct Hpage. by exists size. }
  exists e. split; [|done].
  unfold path in Hsize. simpl in Hsize. unfold getitem in Hsize.
  repeat (case_match; simpl in Hsize; simplify_eq); auto.
Qed.

Lemma search_reads_page_size_first_witness :
  ∃ e, (e = KeyError ∨ e = TypeError) ∧ Search.reshape (VDict ∅) = Raise e.
Proof.
  apply search_reads_page_size_first.
  intros [size Hsize]. vm_compute in Hsize. discriminate Hsize.
Defined.

(** C1 as the specification words it fails on the empty object: the payload
    has no ['_embedded'] key, and the handler raises [KeyError]. *)
Lemma search_sentinel_needs_page :
  (∅ : gmap string value) !! "_embedded" = None ∧
  Search.reshape (VDict ∅) = Raise KeyError ∧
  Search.reshape (VDict ∅) ≠ Ok (VDict (<["events" := VInt 0]> ∅)).
Proof. split; [|split]; [reflexivity | reflexivity | discriminate]. Qed.

(** C1 (amended): for every vendor payload that has [page.size] and no
    ['_embedded'] key, the search handler returns exactly [{'events': 0}],
    the integer [0] and not a list. *)
Theorem search_sentinel (m : gmap string value) :
  is_ok (path (VDict m) ["page"; "size"]) →
  m !! "_embedded" = None →
  Search.reshape (VDict m) = Ok (VDict (<["events" := VInt 0]> ∅)).
Proof.
  intros [size Hsize] Hemb. unfold Search.reshape.
  rewrite Hsize. simpl. by rewrite Hemb.
Qed.

Lemma search_sentinel_witness :
  Search.reshape empty_page = Ok (VDict (<["events" := VInt 0]> ∅)).
Proof.
  apply search_sentinel.
  - exists (VInt 20). reflexivity.
  - reflexivity.
Defined.

(** C5: the outbound query of the search handler ends in the [geoPoint]
    field, which holds exactly the first six characters of the [geoHash]
    parameter when it has at least six, and the whole parameter when it has
    fewer. *)
Theorem search_query_geoPoint (args : list (string * string))
    (keyword distance segmentID geoHash : string) :
  arg args "keyword" = Ok keyword →
  arg args "distance" = Ok distance →
  arg args "segmentID" = Ok segmentID →
  arg args "geoHash" = Ok geoHash →
  ∃ geoPoint,
    Search.query args =
      Ok (api_url +:+ "keyword=" +:+ keyword +:+ "&segmentID=" +:+ segmentID
            +:+ "&radius=" +:+ distance +:+ "&unit=miles&geoPoint=" +:+ geoPoint) ∧
    ((6 ≤ String.length geoHash)%nat →
       String.length geoPoint = 6%nat ∧ ∃ rest, geoHash = geoPoint +:+ rest) ∧
    ((String.length geoHash < 6)%nat → geoPoint = geoHash).
Proof.
  intros Hk Hd Hs Hg. exists (slice_to 6 geoHash). split; [|split].
  - unfold Search.query. rewrite Hk; simpl. rewrite Hd; simpl.
    rewrite Hs; simpl. by rewrite Hg.
  - intros Hlen. split; [|apply slice_to_prefix].
    rewrite slice_to_length. lia.
  - intros Hlen. apply slice_to_short. lia.
Qed.

Lemma search_query_geoPoint_witness :
  ∃ geoPoint,
    Search.query [("keyword", "jazz"); ("distance", "10");
                  ("segmentID", "KZFzniwnSyZfZ7v7nJ"); ("geoHash", "9q5cs1xyz")] =
      Ok (api_url +:+ "keyword=" +:+ "jazz" +:+ "&segmentID=" +:+ "KZFzniwnSyZfZ7v7nJ"
            +:+ "&radius=" +:+ "10" +:+ "&unit=miles&geoPoint=" +:+ geoPoint) ∧
    ((6 ≤ String.length "9q5cs1xyz")%nat →
       String.length geoPoint = 6%nat ∧ ∃ rest, "9q5cs1xyz" = geoPoint +:+ rest) ∧
    ((String.length "9q5cs1xyz" < 6)%nat → geoPoint = "9q5cs1xyz").
Proof. apply search_query_geoPoint; reflexivity. Defined.

Example search_query_long :
  Search.query [("keyword", "jazz"); ("distance", "10");
                ("segmentID", ""); ("geoHash", "9q5cs1xyz")] =
  Ok "https://app.ticketmaster.com/discovery/v2/events.json?apikey=&keyword=jazz&segmentID=&radius=10&unit=miles&geoPoint=9q5cs1".
Proof. reflexivity. Qed.

Example search_query_short :
  Search.query [("keyword", "jazz"); ("distance", "10");
                ("segmentID", ""); ("geoHash", "9q5")] =
  Ok "https://app.ticketmaster.com/discovery/v2/events.json?apikey=&keyword=jazz&segmentID=&radius=10&unit=miles&geoPoint=9q5".
Proof. reflexivity. Qed.

Example search_query_missing_parameter :
  Search.query [("keyword", "jazz"); ("distance", "10")] = Raise BadRequestKeyError.
Proof. reflexivity. Qed.

Lemma summary_total (event : value) :
  event_complete event →
  ∃ s, Search.summary event = Ok s ∧ summary_matches event s.
Proof.
  intros ([id Hid] & [date Hdate] & [icon Hicon] & [name Hname]
            & [genre Hgenre] & [venue Hvenue]).
  pose proof Hdate as Hstart.
  apply (path_snoc_Ok event date ["dates"; "start"]%path "localDate") in Hstart
    as (start & Hstart & Hld).
  unfold Search.summary, summary_matches.
  rewrite Hid, Hdate, Hstart, Hicon, Hname, Hgenre, Hvenue. simpl.
  destruct (start !! "localTime") as [t|] eqn:Htime; simpl.
  - assert (path event ["dates"; "start"; "localTime"] = Ok t) as ->.
    { apply (path_snoc_Ok event t ["dates"; "start"]%path "localTime"). eauto. }
    simpl. eexists. split; [done|]. simpl. by simplify_map_eq.
  - eexists. split; [done|]. simpl. by simplify_map_eq.
Qed.

Lemma sample_event_complete : event_complete sample_event.
Proof. repeat split; eexists; reflexivity. Qed.

(** C4 as the specification words it fails on a payload whose only event has
    every field the mapping reads, but which has no ['page']: the handler
    raises [KeyError] and returns no [events] list. *)
Lemma search_events_needs_page :
  path events_without_page ["_embedded"; "events"] = Ok (VList [sample_event]) ∧
  [sample_event] ≠ [] ∧
  Forall event_complete [sample_event] ∧
  Search.reshape events_without_page = Raise KeyError ∧
  ¬ ∃ summaries,
      Search.reshape events_without_page =
        Ok (VDict (<["events" := VList summaries]> ∅)).
Proof.
  split; [reflexivity|]. split; [discriminate|].
  split; [constructor; [apply sample_event_complete | constructor]|].
  split; [reflexivity|]. intros [summaries H]. discriminate H.
Qed.

(** C4 (amended): for every vendor payload that has [page.size] and an
    embedded list of at least one event, each event carrying [id],
    [dates.start.localDate], a first image [url], [name], the first
    classification's segment name and the first embedded venue's name, the
    handler returns [{'events': l}] where [l] is as long as the vendor's
    list and the [i]-th summary has the [id], [date] and [event] of the
    [i]-th vendor event. *)
Theorem search_events (data : value) (events : list value) :
  is_ok (path data ["page"; "size"]) →
  path data ["_embedded"; "events"] = Ok (VList events) →
  events ≠ [] →
  Forall event_complete events →
  ∃ summaries,
    Search.reshape data = Ok (VDict (<["events" := VList summaries]> ∅)) ∧
    length summaries = length events ∧
    ∀ i event, events !! i = Some event →
      ∃ s, summaries !! i = Some s ∧ summary_matches event s.
Proof.
  intros [size Hsize] Hevents _ Hcomplete.
  pose proof Hevents as Hemb.
  apply (path_snoc_Ok data _ ["_embedded"]%path "events") in Hemb
    as (emb & (m & -> & Hemb)%path_single_Ok & _).
  assert (is_ok (for_each Search.summary events)) as [summaries Hsum].
  { apply for_each_total. eapply Forall_impl; [exact Hcomplete|].
    intros event (s & Hs & _)%summary_total. by exists s. }
  exists summaries. split; [|split].
  - unfold Search.reshape. rewrite Hsize. simpl. rewrite Hemb. simpl.
    rewrite Hevents. simpl. by rewrite Hsum.
  - by eapply for_each_length.
  - intros i event Hi.
    destruct (for_each_lookup _ _ _ _ _ Hsum Hi) as (s & Hs & Hrun).
    exists s. split; [done|].
    assert (event_complete event) as (s' & Hs' & Hmatch)%summary_total.
    { eapply Forall_lookup_1; eauto. }
    congruence.
Qed.

Lemma search_events_witness :
  ∃ summaries,
    Search.reshape events_with_page = Ok (VDict (<["events" := VList summaries]> ∅)) ∧
    length summaries = length [sample_event] ∧
    ∀ i event, [sample_event] !! i = Some event →
      ∃ s, summaries !! i = Some s ∧ summary_matches event s.
Proof.
  apply search_events.
  - exists (VInt 20). reflexivity.
  - reflexivity.
  - discriminate.
  - constructor; [apply sample_event_complete | constructor].
Defined.

Example search_events_sample :
  Search.reshape events_with_page =
  Ok (VDict (<["events" := VList [VDict
       (<["id" := VStr "G5vYZ9"]>
       (<["date" := VStr "2023-03-04"]>
       (<["icon" := VStr "https://img/1.jpg"]>
       (<["event" := VStr "Jazz Night"]>
       (<["genre" := VStr "Music"]>
       (<["venue" := VStr "The Forum"]> ∅))))))]]> ∅)).
Proof. reflexivity. Qed.

(** An embedded ['events'] that is an empty object gives an empty list; one
    with a key makes the loop body subscript a string. *)
Example search_events_empty_object :
  Search.reshape
    (VDict (<["page" := VDict (<["size" := VInt 20]> ∅)]>
           (<["_embedded" := VDict (<["events" := VDict ∅]> ∅)]> ∅))) =
  Ok (VDict (<["events" := VList []]> ∅)).
Proof. reflexivity. Qed.

Example search_events_object :
  Search.reshape
    (VDict (<["page" := VDict (<["size" := VInt 20]> ∅)]>
           (<["_embedded" := VDict (<["events" :=
               VDict (<["a" := sample_event]> ∅)]> ∅)]> ∅))) =
  Raise TypeError.
Proof. reflexivity. Qed.

(** One event without ['images'] fails the whole batch. *)
Example search_events_one_incomplete :
  Search.reshape
    (VDict (<["page" := VDict (<["size" := VInt 20]> ∅)]>
           (<["_embedded" := VDict (<["events" :=
               VList [sample_event; VDict (<["id" := VStr "x"]> ∅)]]> ∅)]> ∅))) =
  Raise KeyError.
Proof. reflexivity. Qed.

(** ** The event-detail handler *)

(** C6: for every vendor payload without a ['name'] key the [card1]
    handler reaches the end of its body without a [return]: its result is
    [None], not a response body. *)
Theorem card1_no_name (repr : value → string) (m : gmap string value) :
  m !! "name" = None →
  Card1.reshape repr (VDict m) = Ok VNone.
Proof. intros Hname. unfold Card1.reshape. simpl. by rewrite Hname. Qed.

Lemma card1_no_name_witness :
  Card1.reshape (λ _, "") (VDict (<["fault" := VStr "Resource not found"]> ∅)) = Ok VNone.
Proof. apply card1_no_name. reflexivity. Defined.

(** A payload that is not an object has no [keys]. *)
Example card1_list_payload (repr : value → string) :
  Card1.reshape repr (VList []) = Raise AttributeError.
Proof. reflexivity. Qed.



(** C2, the code at a payload whose first price range is
    [{min: 20, max: 150, currency: "USD"}]: the handler tests for the key
    ['priceranges'], the vendor's key is ['priceRanges'], and the detail it
    returns has no ['price_ranges'] field at all. *)
Theorem card1_price_range_dropped (repr : value → string) :
  path priced_event ["priceRanges"; 0] = Ok usd_20_150 ∧
  ∃ ret,
    Card1.reshape repr priced_event = Ok (VDict (<["card1" := VList [VDict ret]]> ∅)) ∧
    ret !! "price_ranges" = None.
Proof. split; [reflexivity|]. eexists. split; reflexivity. Qed.

(** With both spellings present the guard passes and the string is the one
    the specification gives. *)
Example card1_price_range_both_keys (repr : value → string) :
  ∃ ret,
    Card1.detail repr doubly_priced_event = Ok ret ∧
    ret !! "price_ranges" = Some (VStr "20-150 USD").
Proof. eexists. split; reflexivity. Qed.

(** With the lower-case key alone the read of ['priceRanges'] raises. *)
Example card1_price_range_lower_case_only (repr : value → string) :
  Card1.reshape repr
    (VDict (<["priceranges" := VList [usd_20_150]]>
              (base_event (<["segment" := level "Music"]> ∅)))) = Raise KeyError.
Proof. reflexivity. Qed.

(** C3, the code at a first classification whose segment is ["Undefined"]
    and whose genre is ["Rock"]: the segment is skipped and the genre is
    appended with its separator, so the string starts with [" | "]. *)
Theorem card1_genre_leading_separator (repr : value → string) :
  Card1.genre rock_event = Ok " | Rock" ∧
  ∃ ret,
    Card1.reshape repr rock_event = Ok (VDict (<["card1" := VList [VDict ret]]> ∅)) ∧
    ret !! "genre" = Some (VStr " | Rock").
Proof. split; [reflexivity|]. eexists. split; reflexivity. Qed.

(** The instance the specification gives: segment ["Music"], genre
    ["Undefined"], subGenre ["Rock"]. *)
Example card1_genre_music_rock : Card1.genre music_rock_event = Ok "Music | Rock".
Proof. reflexivity. Qed.

Example card1_genre_absent_segment :
  Card1.genre (VDict (base_event (<["subGenre" := level "Rock"]>
                                 (<["type" := level "Concert"]> ∅)))) =
  Ok " | Rock | Concert".
Proof. reflexivity. Qed.

(** ** The genre string in closed form *)

Lemma path_level (data : value) (level : string) :
  path data ["classifications"; 0; K level; "name"] =
  c ← path data ["classifications"; 0]; path c [K level; "name"].
Proof. apply (path_app data ["classifications"; 0]%path [K level; K "name"]%path). Qed.

Lemma level_included_true (data : value) (level : string) :
  Card1.level_included data level = Ok true →
  ∃ name, path data ["classifications"; 0; K level; "name"] = Ok name ∧
          eq_str name "Undefined" = false.
Proof.
  unfold Card1.level_included. intros H. invert_run.
  eexists. split; [eassumption|]. by apply negb_true_iff.
Qed.

Lemma level_included_false (data : value) (level : string) :
  Card1.level_included data level = Ok false →
  level_name data level = None.
Proof.
  unfold Card1.level_included, level_name. intros H. invert_run.
  - apply negb_false_iff, eq_str_true in H as ->.
    match goal with Hn : path _ _ = Ok _ |- _ => by rewrite Hn end.
  - match goal with Hk : in_keys _ _ = Ok false |- _ =>
      apply in_keys_Ok in Hk as (m & -> & Hm) end.
    symmetry in Hm. apply bool_decide_eq_false in Hm.
    rewrite path_level.
    match goal with Hc : path _ _ = Ok _ |- _ => rewrite Hc end.
    simpl. unfold path. simpl.
    destruct (m !! level) as [x|] eqn:Hx; [|done].
    destruct Hm. by exists x.
Qed.

(** One of the four later [if] statements of the genre. *)
Lemma genre_level_step (data : value) (level g g' : string) (c : bool) :
  Card1.level_included data level = Ok c →
  (if c
   then name ← path data ["classifications"; 0; K level; "name"];
        t ← str_add " | " name; Ok (g +:+ t)
   else Ok g) = Ok g' →
  g' = g +:+ level_part data " | " level.
Proof.
  unfold level_part. destruct c; intros Hc H.
  - apply level_included_true in Hc as (name & Hname & Hne).
    rewrite Hname in H. simpl in H. unfold level_name. rewrite Hname.
    destruct name; simpl in *; try discriminate H.
    injection H as <-. apply bool_decide_eq_false in Hne.
    by rewrite bool_decide_false.
  - apply level_included_false in Hc as ->. injection H as <-.
    simpl. by rewrite append_nil_r.
Qed.

(** The first [if] statement, which appends the segment alone. *)
Lemma genre_segment_step (data : value) (g' : string) (c : bool) :
  Card1.level_included data "segment" = Ok c →
  (if c
   then name ← path data ["classifications"; 0; "segment"; "name"];
        str_add "" name
   else Ok "") = Ok g' →
  g' = level_part data "" "segment".
Proof.
  unfold level_part. destruct c; intros Hc H.
  - apply level_included_true in Hc as (name & Hname & Hne).
    rewrite Hname in H. simpl in H. unfold level_name. rewrite Hname.
    destruct name; simpl in *; try discriminate H.
    injection H as <-. apply bool_decide_eq_false in Hne.
    by rewrite bool_decide_false.
  - apply level_included_false in Hc as ->. by injection H as <-.
Qed.

Lemma genre_Ok (data : value) (g : string) :
  Card1.genre data = Ok g → g = genre_parts data.
Proof.
  unfold Card1.genre, genre_parts. cbv zeta. intros H.
  apply bind_Ok in H as (c1 & Hc1 & H). apply bind_Ok in H as (g1 & Hg1 & H).
  apply bind_Ok in H as (c2 & Hc2 & H). apply bind_Ok in H as (g2 & Hg2 & H).
  apply bind_Ok in H as (c3 & Hc3 & H). apply bind_Ok in H as (g3 & Hg3 & H).
  apply bind_Ok in H as (c4 & Hc4 & H). apply bind_Ok in H as (g4 & Hg4 & H).
  apply bind_Ok in H as (c5 & Hc5 & H). apply bind_Ok in H as (g5 & Hg5 & H).
  injection H as <-.
  apply (genre_segment_step _ _ _ Hc1) in Hg1.
  apply (genre_level_step _ _ _ _ _ Hc2) in Hg2.
  apply (genre_level_step _ _ _ _ _ Hc3) in Hg3.
  apply (genre_level_step _ _ _ _ _ Hc4) in Hg4.
  apply (genre_level_step _ _ _ _ _ Hc5) in Hg5.
  subst. by rewrite !append_assoc.
Qed.


(** Without it the two differ by the leading separator. *)
Example genre_parts_not_join :
  Card1.genre rock_event = Ok " | Rock" ∧ spec_genre rock_event = "Rock".
Proof. split; reflexivity. Qed.

(** ** Where the output fields come from *)

Lemma all_fields_empty (sourced : string → value → Prop) : all_fields sourced ∅.
Proof. intros k v H. by rewrite lookup_empty in H. Qed.

Lemma all_fields_insert (sourced : string → value → Prop) (k : string)
    (v : value) (ret : gmap string value) :
  sourced k v → all_fields sourced ret → all_fields sourced (<[k:=v]> ret).
Proof.
  intros Hk Hret k' v'. rewrite lookup_insert_Some.
  intros [[<- <-]|[_ H]]; [done | by apply Hret].
Qed.

Ltac solve_copied :=
  eexists; split;
    [ solve [repeat first [apply list_elem_of_here | apply list_elem_of_further]]
    | eassumption ].

Ltac solve_fields :=
  repeat match goal with
  | |- all_fields _ (<[_:=_]> _) => apply all_fields_insert
  | |- all_fields _ ∅ => apply all_fields_empty
  end.

Lemma summary_sourced (event s : value) :
  Search.summary event = Ok s →
  ∃ temp, s = VDict temp ∧ all_fields (copied summary_sources event) temp.
Proof.
  unfold Search.summary. intros H. invert_run; subst.
  all: eexists; split; [done|].
  all: solve_fields; solve_copied.
Qed.

Lemma summaries_sourced (events : list value) (summaries : list value) :
  for_each Search.summary events = Ok summaries →
  Forall2 (λ event s,
    ∃ temp, s = VDict temp ∧ all_fields (copied summary_sources event) temp)
    events summaries.
Proof.
  revert summaries. induction events as [|event events IH]; intros summaries; simpl.
  - intros [= <-]. constructor.
  - intros H. invert_run. subst. constructor; [by apply summary_sourced | by apply IH].
Qed.

Lemma detail_sourced (repr : value → string) (data : value)
    (ret : gmap string value) :
  Card1.detail repr data = Ok ret →
  all_fields (detail_field repr data) ret.
Proof.
  unfold Card1.detail. intros H. invert_run; subst.
  all: repeat match goal with
       | Hg : Card1.genre _ = Ok _ |- _ => apply genre_Ok in Hg as ->
       | Hp : str_add _ _ = Ok _ |- _ => apply str_add_Ok in Hp as (? & -> & ->)
       end.
  all: solve_fields.
  all: first
    [ left; solve_copied
    | right; left; by split
    | right; right; split; [done|];
      do 3 eexists; repeat split; try eassumption;
      by rewrite !append_assoc ].
Qed.

Lemma venue_sourced (data r : value) :
  Card2.reshape data = Ok r →
  (r = VNone ∧ in_keys "_embedded" data = Ok false) ∨
  ∃ ret, r = VDict ret ∧ all_fields (venue_field data) ret ∧
         is_Some (ret !! "venue") ∧ is_Some (ret !! "logo") ∧ is_Some (ret !! "map").
Proof.
  unfold Card2.reshape. intros H. invert_run; subst.
  all: try (by left).
  all: right; eexists; split; [done|].
  all: repeat match goal with
       | Hp : str_add _ _ = Ok _ |- _ => apply str_add_Ok in Hp as (? & -> & ->)
       | Hv : getitem (VDict _) "venue" = Ok _ |- _ =>
           vm_compute in Hv; injection Hv as ->
       end.
  all: split; [|split; [|split]; vm_compute; eauto].
  all: solve_fields.
  all: first
    [ left; solve_copied
    | right; left; split; [done|]; split; [done|];
      match goal with
      | Hi : in_keys "images" ?x = Ok false, Hp : path _ _ = Ok ?x |- _ =>
          apply in_keys_false in Hi as (m & -> & Hm); exists m; by split
      end
    | right; right; split; [done|]; eexists; split; [eassumption|];
      by rewrite ?append_assoc ].
Qed.

(** ** The venue-detail handler *)

Lemma venue_images_absent (data v : value) (venue : gmap string value) :
  path data ["_embedded"; "venues"; 0] = Ok (VDict venue) →
  venue !! "images" = None →
  path data ["_embedded"; "venues"; 0; "images"; 0; "url"] ≠ Ok v.
Proof.
  intros Hvenue Himages H.
  change (path data (["_embedded"; "venues"; 0]%path ++ ["images"; 0; "url"]%path)%list
          = Ok v) in H.
  rewrite path_app, Hvenue in H. simpl in H. unfold path in H. simpl in H.
  by rewrite Himages in H.
Qed.

(** C8: when the first venue of the embedded collection has no ['images']
    key, the ['logo'] field of the response [card2] returns is the string
    ["nologo"]. *)
Theorem card2_logo_default (data r : value) (venue : gmap string value) :
  path data ["_embedded"; "venues"; 0] = Ok (VDict venue) →
  venue !! "images" = None →
  Card2.reshape data = Ok r →
  path r ["logo"] = Ok (VStr "nologo").
Proof.
  intros Hvenue Himages Hrun.
  destruct (venue_sourced _ _ Hrun)
    as [[_ Hno]|(ret & -> & Hfields & _ & [logo Hlogo] & _)].
  { apply path_head_in_keys in Hvenue. congruence. }
  apply path_single_Ok. exists ret. split; [done|].
  destruct (Hfields _ _ Hlogo) as [(p & Hp & Hcopy)|[(_ & -> & _)|([=] & _)]];
    [|done].
  unfold venue_sources in Hp.
  repeat (apply elem_of_cons in Hp as [Hp|Hp]; [simplify_eq|]).
  - by destruct (venue_images_absent _ logo _ Hvenue Himages).
  - by apply elem_of_nil in Hp.
Qed.

Lemma card2_logo_default_witness :
  path (VDict (<["map" := VStr "https://www.google.com/maps/search/?api=&query=The Forum"]>
              (<["postal_code" := VStr "90305"]>
              (<["city" := VStr "Inglewood"]>
              (<["logo" := VStr "nologo"]>
              (<["venue" := VStr "The Forum"]> ∅))))))
       ["logo"] = Ok (VStr "nologo").
Proof.
  apply (card2_logo_default (venue_payload plain_venue) _ plain_venue);
    reflexivity.
Defined.

Example card2_plain_venue :
  Card2.reshape (venue_payload plain_venue) =
  Ok (VDict (<["venue" := VStr "The Forum"]>
            (<["logo" := VStr "nologo"]>
            (<["city" := VStr "Inglewood"]>
            (<["postal_code" := VStr "90305"]>
            (<["map" := VStr "https://www.google.com/maps/search/?api=&query=The Forum"]>
               ∅)))))).
Proof. reflexivity. Qed.

(** Without an embedded collection the body ends without [return]. *)
Example card2_no_embedded : Card2.reshape (VDict ∅) = Ok VNone.
Proof. reflexivity. Qed.

(** An ['address'] without ['line1'] fails the request. *)
Example card2_address_without_line1 :
  Card2.reshape (venue_payload (<["address" := VDict ∅]> plain_venue)) = Raise KeyError.
Proof. reflexivity. Qed.

(** ** Every output field has a vendor source *)

(** C7: in every response of the three handlers each output field is a copy
    of the vendor field it is named after in [summary_sources],
    [detail_sources] or [venue_sources], so an optional field ([time],
    [artist_team], [seat_map], [address], [city], [stateCode],
    [postal_code], [url]) is there only if the vendor's field is; the genre
    of [card1] is made of the names of the levels that are present and not
    ["Undefined"]; the price range is formatted from the vendor's first
    price range; and the only fields without a vendor value behind them are
    the ["nologo"] logo of a venue without images and the map link, which is
    built from the venue's name. *)
Theorem output_fields_sourced (repr : value → string) (r : route)
    (data response : value) :
  reshape repr r data = Ok response →
  fields_sourced repr r data response.
Proof.
  destruct r; simpl.
  - unfold Search.reshape. intros H. invert_run; subst; [|by left].
    right. do 3 eexists. repeat split; try eassumption.
    by apply summaries_sourced.
  - unfold Card1.reshape. intros H. invert_run; subst; [|by left].
    right. eexists. split; [done|]. by apply detail_sourced.
  - intros [[-> _]|(ret & -> & Hfields & _)]%venue_sourced; [by left|].
    right. by exists ret.
Qed.

Lemma output_fields_sourced_witness :
  fields_sourced (λ _, "") get_card2 (venue_payload plain_venue)
    (VDict (<["map" := VStr "https://www.google.com/maps/search/?api=&query=The Forum"]>
           (<["postal_code" := VStr "90305"]>
           (<["city" := VStr "Inglewood"]>
           (<["logo" := VStr "nologo"]>
           (<["venue" := VStr "The Forum"]> ∅)))))).
Proof. apply output_fields_sourced. reflexivity. Defined.

(** ** Requests: required parameters and the vendor call *)

Lemma arg_Raise (args : list (string * string)) (k : string) (e : exn) :
  arg args k = Raise e → e = BadRequestKeyError.
Proof.
  induction args as [|[k' v] args IH]; simpl.
  - by intros [= <-].
  - case_bool_decide; [done | exact IH].
Qed.

Lemma arg_not_ok (args : list (string * string)) (k : string) :
  ¬ is_ok (arg args k) → arg args k = Raise BadRequestKeyError.
Proof.
  destruct (arg args k) as [v|e] eqn:H.
  - intros []. by exists v.
  - by apply arg_Raise in H as ->.
Qed.

(** A request that lacks one of the parameters its route requires raises
    [BadRequestKeyError], whatever the vendor would answer. *)
Theorem missing_parameter_rejected (repr : value → string) (r : route)
    (vendor : string → result value) (args : list (string * string)) (k : string) :
  k ∈ required r →
  ¬ is_ok (arg args k) →
  handle repr r vendor args = Raise BadRequestKeyError.
Proof.
  intros Hk Hno. apply arg_not_ok in Hno.
  destruct r; simpl in Hk; unfold handle, Search.search, Search.query,
    Card1.card1, Card1.query, Card2.card2, Card2.query;
    repeat (apply elem_of_cons in Hk as [->|Hk];
            [rewrite ?Hno; simpl;
             repeat match goal with
             | |- context [arg args ?k'] =>
                 let H := fresh in
                 destruct (arg args k') as [?|?] eqn:H;
                   [simpl | by apply arg_Raise in H as ->]
             end; try done; try congruence|]);
    by apply elem_of_nil in Hk.
Qed.

Lemma missing_parameter_rejected_witness :
  handle (λ _, "") get_search_results (λ _, Ok (VDict ∅))
    [("keyword", "jazz"); ("distance", "10"); ("geoHash", "9q5cs1")] =
  Raise BadRequestKeyError.
Proof.
  apply (missing_parameter_rejected _ _ _ _ "segmentID").
  - vm_compute. do 2 apply list_elem_of_further. apply list_elem_of_here.
  - intros [v H]. vm_compute in H. discriminate H.
Defined.

(** When every required parameter is present the route asks the vendor for
    one URL, which depends on the request alone, and the handler's outcome
    is the reshaping of the answer: an exception of the call is the
    handler's exception. *)
Theorem complete_request_forwarded (repr : value → string) (r : route)
    (args : list (string * string)) :
  Forall (λ k, is_ok (arg args k)) (required r) →
  ∃ url, query r args = Ok url ∧
    ∀ vendor, handle repr r vendor args =
      match vendor url with
      | Ok data => reshape repr r data
      | Raise e => Raise e
      end.
Proof.
  intros Hall. destruct r; simpl in Hall; simpl;
    unfold Search.search, Search.query, Card1.card1, Card1.query,
      Card2.card2, Card2.query;
    repeat match goal with
    | H : Forall _ (_ :: _) |- _ =>
        apply Forall_cons in H as [[? ->] H]; simpl
    end;
    (eexists; split; [done|]; intros vendor; simpl; by destruct (vendor _)).
Qed.

Lemma complete_request_forwarded_witness :
  ∃ url, query get_card2 [("keyword", "Forum")] = Ok url ∧
    ∀ vendor, handle (λ _, "") get_card2 vendor [("keyword", "Forum")] =
      match vendor url with
      | Ok data => reshape (λ _, "") get_card2 data
      | Raise e => Raise e
      end.
Proof.
  apply complete_request_forwarded.
  constructor; [by exists "Forum" | constructor].
Defined.

(** ** The search handler: the sentinel, the loop and the summaries *)

Lemma for_each_first_Raise {A B : Type} (f : A → result B)
    (good rest : list A) (bad : A) (e : exn) :
  Forall (λ x, is_ok (f x)) good → f bad = Raise e →
  for_each f (good ++ bad :: rest) = Raise e.
Proof.
  intros Hgood Hbad. induction Hgood as [|x good [y Hy] _ IH]; simpl.
  - by rewrite Hbad.
  - rewrite Hy. simpl. by rewrite IH.
Qed.

(** A guard that failed excludes every longer chain of subscripts. *)
Lemma guard_false_no_path (data x v : value) (p q : list key) (k : string) :
  path data p = Ok x → in_keys k x = Ok false →
  path data (p ++ K k :: q)%list ≠ Ok v.
Proof.
  intros Hp Hk Hv. rewrite path_app, Hp in Hv. simpl in Hv.
  apply path_head_in_keys in Hv. congruence.
Qed.

(** The search handler answers [{'events': 0}] exactly when the payload has
    [page.size] and is an object without the key ['_embedded']: with the key
    the answer, if any, is a list. *)
Theorem search_sentinel_iff (data : value) :
  Search.reshape data = Ok (VDict (<["events" := VInt 0]> ∅)) ↔
  is_ok (path data ["page"; "size"]) ∧ in_keys "_embedded" data = Ok false.
Proof.
  unfold Search.reshape. split.
  - intros H. invert_run. split; [by eexists | done].
  - intros [[size ->] ->]. done.
Qed.

(** The loop stops at the first event whose summary raises: the handler
    raises that exception and returns no summary at all. *)
Theorem search_first_bad_event (data bad : value) (good rest : list value)
    (e : exn) :
  is_ok (path data ["page"; "size"]) →
  path data ["_embedded"; "events"] = Ok (VList (good ++ bad :: rest)) →
  Forall event_complete good →
  Search.summary bad = Raise e →
  Search.reshape data = Raise e.
Proof.
  intros [size Hsize] Hevents Hgood Hbad.
  pose proof (path_head_in_keys _ _ _ _ Hevents) as Hemb.
  unfold Search.reshape. rewrite Hsize. simpl. rewrite Hemb. simpl.
  rewrite Hevents. simpl.
  rewrite (for_each_first_Raise _ _ _ _ e); [done| |done].
  eapply Forall_impl; [exact Hgood|].
  intros event (s & Hs & _)%summary_total. by exists s.
Qed.

Lemma search_first_bad_event_witness :
  Search.reshape
    (page_with (VList ([sample_event] ++ incomplete_event :: [sample_event]))) =
  Raise KeyError.
Proof.
  apply (search_first_bad_event _ incomplete_event [sample_event] [sample_event]).
  - exists (VInt 20). reflexivity.
  - reflexivity.
  - constructor; [apply sample_event_complete | constructor].
  - reflexivity.
Defined.

(** An embedded ['events'] that is not a list: an empty object or an empty
    string is iterated as no event and gives [{'events': []}]; anything
    else makes the handler raise [TypeError]. *)
Theorem search_events_not_a_list (data data2 : value) :
  is_ok (path data ["page"; "size"]) →
  path data ["_embedded"; "events"] = Ok data2 →
  (∀ l, data2 ≠ VList l) →
  ((data2 = VDict ∅ ∨ data2 = VStr "") ∧
   Search.reshape data = Ok (VDict (<["events" := VList []]> ∅))) ∨
  ((data2 ≠ VDict ∅ ∧ data2 ≠ VStr "") ∧
   Search.reshape data = Raise TypeError).
Proof.
  intros [size Hsize] Hevents Hlist.
  pose proof (path_head_in_keys _ _ _ _ Hevents) as Hemb.
  unfold Search.reshape. rewrite Hsize. simpl. rewrite Hemb. simpl.
  rewrite Hevents. simpl.
  destruct data2 as [| | | |s|l|m]; simpl.
  1-4: by right.
  - destruct s as [|c s]; [left; by eauto|]. right. by split.
  - by destruct (Hlist l).
  - destruct (map_to_list m) as [|[k v] kvs] eqn:Hm.
    + apply map_to_list_empty_iff in Hm as ->. left. by eauto.
    + right. split; [|done]. split; [|done].
      intros [= ->]. by rewrite map_to_list_empty in Hm.
Qed.

Lemma search_events_not_a_list_witness :
  ((VNone = VDict ∅ ∨ VNone = VStr "") ∧
   Search.reshape (page_with VNone) = Ok (VDict (<["events" := VList []]> ∅))) ∨
  ((VNone ≠ VDict ∅ ∧ VNone ≠ VStr "") ∧
   Search.reshape (page_with VNone) = Raise TypeError).
Proof.
  apply search_events_not_a_list.
  - exists (VInt 20). reflexivity.
  - reflexivity.
  - intros l. discriminate.
Defined.

Ltac invert_member H :=
  repeat (apply elem_of_cons in H as [H|H]; [simplify_eq|]);
  try (by apply elem_of_nil in H).

(** The read [Hv] goes through a key whose guard failed. *)
Ltac guard_contradiction Hv :=
  lazymatch type of Hv with
  | path ?d ?l = Ok ?v =>
      match goal with
      | Hg : in_keys ?k ?x = Ok false, Hp : path d ?p = Ok ?x |- _ =>
          by destruct (guard_false_no_path d x v p _ k Hp Hg Hv)
      | Hg : in_keys ?k d = Ok false |- _ =>
          apply path_head_in_keys in Hv; congruence
      end
  end.

Ltac same_read :=
  match goal with
  | H1 : path ?d ?p = Ok _, H2 : path ?d ?p = Ok _ |- _ =>
      rewrite H1 in H2; injection H2 as <-
  end.

(** Every vendor field of the table that the event has is in its summary,
    with the vendor's value: in particular [time] whenever the event has a
    [localTime]. *)
Theorem summary_fields_complete (event v : value) (s : gmap string value)
    (k : string) (p : list key) :
  Search.summary event = Ok (VDict s) →
  (k, p) ∈ summary_sources →
  path event p = Ok v →
  s !! k = Some v.
Proof.
  unfold Search.summary, summary_sources. intros H Hk Hv.
  invert_run; simplify_eq; invert_member Hk.
  all: first [ repeat same_read; reflexivity | guard_contradiction Hv ].
Qed.

Lemma summary_fields_complete_witness :
  sample_summary !! "icon" = Some (VStr "https://img/1.jpg").
Proof.
  apply (summary_fields_complete sample_event _ _ _ ["images"; 0; "url"]%path).
  - reflexivity.
  - vm_compute. do 3 apply list_elem_of_further. apply list_elem_of_here.
  - reflexivity.
Defined.

(** Apart from the optional [time], a summary has exactly the six keys
    [id], [date], [icon], [event], [genre] and [venue]. *)
Theorem summary_keys (event s : value) :
  Search.summary event = Ok s →
  ∃ temp, s = VDict temp ∧
    dom temp ∖ {["time"]} = {["id"; "date"; "icon"; "event"; "genre"; "venue"]}.
Proof.
  unfold Search.summary. intros H. invert_run; simplify_eq.
  all: eexists; split; [done|].
  all: rewrite !dom_insert_L, dom_empty_L; set_solver.
Qed.

Lemma summary_keys_witness :
  ∃ temp, VDict sample_summary = VDict temp ∧
    dom temp ∖ {["time"]} = {["id"; "date"; "icon"; "event"; "genre"; "venue"]}.
Proof. apply (summary_keys sample_event). reflexivity. Defined.

(** ** The event-detail handler: keys, genre and price range *)

(** Every vendor field of the table that the payload has is in the event
    detail, with the vendor's value. *)
Theorem detail_fields_complete (repr : value → string) (data v : value)
    (ret : gmap string value) (k : string) (p : list key) :
  Card1.detail repr data = Ok ret →
  (k, p) ∈ detail_sources →
  path data p = Ok v →
  ret !! k = Some v.
Proof.
  unfold Card1.detail, detail_sources. intros H Hk Hv.
  invert_run; simplify_eq; invert_member Hk.
  all: first [ repeat same_read; reflexivity | guard_contradiction Hv ].
Qed.

Lemma detail_fields_complete_witness :
  ∃ ret, Card1.detail (λ _, "") music_rock_event = Ok ret ∧
         ret !! "ticket_status" = Some (VStr "onsale").
Proof.
  eexists. split; [reflexivity|].
  apply (detail_fields_complete (λ _, "") music_rock_event _ _ _
           ["dates"; "status"; "code"]%path).
  - reflexivity.
  - vm_compute. do 6 apply list_elem_of_further. apply list_elem_of_here.
  - reflexivity.
Defined.

(** Apart from the optional [time], [artist_team], [price_ranges] and
    [seat_map], an event detail has exactly the seven keys [title], [date],
    [url], [venue], [genre], [ticket_status] and [buy_ticket_at]. *)
Theorem detail_keys (repr : value → string) (data : value)
    (ret : gmap string value) :
  Card1.detail repr data = Ok ret →
  dom ret ∖ {["time"; "artist_team"; "price_ranges"; "seat_map"]} =
  {["title"; "date"; "url"; "venue"; "genre"; "ticket_status"; "buy_ticket_at"]}.
Proof.
  unfold Card1.detail. intros H. invert_run; simplify_eq.
  all: rewrite !dom_insert_L, dom_empty_L; set_solver.
Qed.

Lemma detail_keys_witness :
  ∃ ret, Card1.detail (λ _, "") doubly_priced_event = Ok ret ∧
    dom ret ∖ {["time"; "artist_team"; "price_ranges"; "seat_map"]} =
    {["title"; "date"; "url"; "venue"; "genre"; "ticket_status"; "buy_ticket_at"]}.
Proof.
  eexists. split; [reflexivity|].
  apply (detail_keys (λ _, "") doubly_priced_event). reflexivity.
Defined.

(** The [buy_ticket_at] field of an event detail is its [url] field. *)
Theorem detail_buy_ticket_is_url (repr : value → string) (data : value)
    (ret : gmap string value) :
  Card1.detail repr data = Ok ret →
  is_Some (ret !! "url") ∧ ret !! "buy_ticket_at" = ret !! "url".
Proof.
  unfold Card1.detail. intros H. invert_run; simplify_eq.
  all: repeat same_read; split; [by eexists | reflexivity].
Qed.

Lemma detail_buy_ticket_is_url_witness :
  ∃ ret, Card1.detail (λ _, "") music_rock_event = Ok ret ∧
    is_Some (ret !! "url") ∧ ret !! "buy_ticket_at" = ret !! "url".
Proof.
  eexists. split; [reflexivity|].
  apply (detail_buy_ticket_is_url (λ _, "") music_rock_event). reflexivity.
Defined.



Lemma level_included_present (data : value) (c : gmap string value)
    (l : string) (b : bool) :
  Card1.level_included data l = Ok b →
  path data ["classifications"; 0] = Ok (VDict c) →
  is_Some (c !! l) →
  ∃ name, path data ["classifications"; 0; K l; "name"] = Ok name ∧
          b = negb (eq_str name "Undefined").
Proof.
  unfold Card1.level_included. intros H Hc Hl. invert_run; same_read.
  - eexists. by split.
  - simpl in *. rewrite bool_decide_true in * by done. congruence.
Qed.

(** The genre is built only if every level the first classification has
    carries a name that is a string. *)
Theorem card1_level_names_are_strings (data : value) (c : gmap string value)
    (l g : string) :
  Card1.genre data = Ok g →
  path data ["classifications"; 0] = Ok (VDict c) →
  l ∈ levels →
  is_Some (c !! l) →
  ∃ name, path data ["classifications"; 0; K l; "name"] = Ok (VStr name).
Proof.
  unfold Card1.genre, levels. cbv zeta. intros H Hc Hl Hpresent.
  apply bind_Ok in H as (c1 & Hc1 & H). apply bind_Ok in H as (g1 & Hg1 & H).
  apply bind_Ok in H as (c2 & Hc2 & H). apply bind_Ok in H as (g2 & Hg2 & H).
  apply bind_Ok in H as (c3 & Hc3 & H). apply bind_Ok in H as (g3 & Hg3 & H).
  apply bind_Ok in H as (c4 & Hc4 & H). apply bind_Ok in H as (g4 & Hg4 & H).
  apply bind_Ok in H as (c5 & Hc5 & H). apply bind_Ok in H as (g5 & Hg5 & _).
  invert_member Hl.
  all: match goal with
       | Hi : Card1.level_included _ ?l = Ok ?b,
         Hs : (if ?b then _ else _) = Ok _ |- context [K ?l] =>
           destruct (level_included_present _ _ _ _ Hi Hc Hpresent)
             as (name & Hname & ->);
           destruct (eq_str name "Undefined") eqn:Hu; simpl in Hs;
             [ apply eq_str_true in Hu as ->; by eexists
             | rewrite Hname in Hs; simpl in Hs;
               destruct name; simpl in Hs; try discriminate Hs; by eexists ]
       end.
Qed.

Lemma card1_level_names_are_strings_witness :
  ∃ name, path music_rock_event ["classifications"; 0; "genre"; "name"] = Ok (VStr name).
Proof.
  apply (card1_level_names_are_strings music_rock_event
           (<["segment" := level "Music"]>
           (<["genre" := level "Undefined"]>
           (<["subGenre" := level "Rock"]> ∅))) "genre" "Music | Rock").
  - reflexivity.
  - reflexivity.
  - vm_compute. apply list_elem_of_further, list_elem_of_here.
  - by eexists.
Defined.

(** When the guard on ['priceranges'] passes, the price range of the detail
    is [str(min) + '-' + str(max) + ' ' + currency] of the first entry of
    ['priceRanges']. *)
Theorem card1_price_range_format (repr : value → string) (data lo hi : value)
    (currency : string) (ret : gmap string value) :
  Card1.detail repr data = Ok ret →
  in_keys "priceranges" data = Ok true →
  path data ["priceRanges"; 0; "min"] = Ok lo →
  path data ["priceRanges"; 0; "max"] = Ok hi →
  path data ["priceRanges"; 0; "currency"] = Ok (VStr currency) →
  ret !! "price_ranges" =
    Some (VStr (Card1.str repr lo +:+ "-" +:+ Card1.str repr hi +:+ " " +:+ currency)).
Proof.
  unfold Card1.detail. intros H Hguard Hlo Hhi Hcur.
  invert_run; simplify_eq; try congruence.
  all: repeat same_read.
  all: match goal with
       | Hp : str_add _ _ = Ok _ |- _ => simpl in Hp; injection Hp as <-
       end.
  all: rewrite ?append_assoc; reflexivity.
Qed.

Lemma card1_price_range_format_witness :
  ∃ ret, Card1.detail (λ _, "") doubly_priced_event = Ok ret ∧
    ret !! "price_ranges" =
      Some (VStr (Card1.str (λ _, "") (VInt 20) +:+ "-"
                    +:+ Card1.str (λ _, "") (VInt 150) +:+ " " +:+ "USD")).
Proof.
  eexists. split; [reflexivity|].
  by apply (card1_price_range_format (λ _, "") doubly_priced_event).
Defined.

(** An event detail has a price range exactly when the payload has the
    lower-case key ['priceranges']. *)
Theorem card1_price_range_guard (repr : value → string) (data : value)
    (ret : gmap string value) :
  Card1.detail repr data = Ok ret →
  is_Some (ret !! "price_ranges") ↔ in_keys "priceranges" data = Ok true.
Proof.
  unfold Card1.detail. intros H. invert_run; simplify_eq.
  all: split; [intros [v Hv]|intros Hg]; try done; try congruence.
  all: first [ by eexists | by vm_compute in Hv ].
Qed.

Lemma card1_price_range_guard_witness :
  ∃ ret, Card1.detail (λ _, "") priced_event = Ok ret ∧
    (is_Some (ret !! "price_ranges") ↔ in_keys "priceranges" priced_event = Ok true).
Proof.
  eexists. split; [reflexivity|].
  apply (card1_price_range_guard (λ _, "") priced_event). reflexivity.
Defined.

(** A payload with a ['name'] and the lower-case key ['priceranges'] but
    without ['priceRanges'] never gets a response: the handler raises. *)
Theorem card1_lower_case_key_alone (repr : value → string)
    (m : gmap string value) :
  is_Some (m !! "name") →
  is_Some (m !! "priceranges") →
  m !! "priceRanges" = None →
  ∃ e, Card1.reshape repr (VDict m) = Raise e.
Proof.
  intros Hname Hlower Hcamel.
  destruct (Card1.reshape repr (VDict m)) as [r|e] eqn:H; [|by exists e].
  exfalso. unfold Card1.reshape, Card1.detail in H. invert_run; simplify_eq.
  all: match goal with
       | Hk : in_keys _ (VDict _) = Ok false |- _ =>
           simpl in Hk; rewrite bool_decide_true in Hk by done; discriminate Hk
       | Hp : path (VDict _) (K "priceRanges" :: _) = Ok _ |- _ =>
           apply path_head_in_keys in Hp; simpl in Hp;
           rewrite Hcamel in Hp; discriminate Hp
       end.
Qed.

Lemma card1_lower_case_key_alone_witness :
  ∃ e, Card1.reshape (λ _, "") lower_case_priced_event = Raise e.
Proof.
  apply card1_lower_case_key_alone; [by eexists | by eexists | reflexivity].
Defined.

(** [card1] ends without a response exactly when the payload is an object
    without the key ['name']. *)
Theorem card1_none_iff (repr : value → string) (data : value) :
  Card1.reshape repr data = Ok VNone ↔ in_keys "name" data = Ok false.
Proof.
  unfold Card1.reshape. split.
  - intros H. by invert_run.
  - by intros ->.
Qed.

(** ** The venue-detail handler: keys, map link and guarded fields *)

Lemma contains_false_no_path (data x v : value) (p q : list key) (k : string) :
  path data p = Ok x → contains k x = Ok false →
  path data (p ++ K k :: q)%list ≠ Ok v.
Proof.
  intros Hp Hk Hv. rewrite path_app, Hp in Hv. simpl in Hv.
  change (K k :: q) with ([K k]%path ++ q)%list in Hv. rewrite path_app in Hv.
  apply bind_Ok in Hv as (y & (m & -> & Hy)%path_single_Ok & _).
  simpl in Hk. rewrite Hy in Hk. discriminate Hk.
Qed.

Ltac venue_guard_contradiction Hv :=
  first
    [ guard_contradiction Hv
    | lazymatch type of Hv with
      | path ?d ?l = Ok ?v =>
          match goal with
          | Hg : contains ?k ?x = Ok false, Hp : path d ?p = Ok ?x |- _ =>
              by destruct (contains_false_no_path d x v p _ k Hp Hg Hv)
          end
      end ].

(** The guard on a key the venue has cannot have failed. *)
Ltac guard_passed Hvenue :=
  match goal with
  | Hg : in_keys _ ?x = Ok false, Hp : path _ _ = Ok ?x |- _ =>
      rewrite Hvenue in Hp; injection Hp as <-; simpl in Hg;
      rewrite bool_decide_true in Hg by done; discriminate Hg
  | Hg : contains _ ?x = Ok false, Hp : path _ _ = Ok ?x |- _ =>
      rewrite Hvenue in Hp; injection Hp as <-; simpl in Hg;
      rewrite bool_decide_true in Hg by done; discriminate Hg
  end.

(** The read that [Hno] says fails is among the hypotheses. *)
Ltac read_succeeded Hno :=
  lazymatch type of Hno with
  | ¬ is_ok (path ?d ?l) =>
      match goal with
      | H : path d l = Ok _ |- _ => destruct Hno; eexists; exact H
      end
  end.

(** [card2] ends without a response exactly when the payload is an object
    without the key ['_embedded']. *)
Theorem card2_none_iff (data : value) :
  Card2.reshape data = Ok VNone ↔ in_keys "_embedded" data = Ok false.
Proof.
  split.
  - by intros [[_ H]|(ret & [=] & _)]%venue_sourced.
  - unfold Card2.reshape. by intros ->.
Qed.

(** Every vendor field of the table that the first venue has is in the
    venue detail, with the vendor's value: the logo is the first image's
    [url] whenever the venue has one. *)
Theorem venue_fields_complete (data v : value) (ret : gmap string value)
    (k : string) (p : list key) :
  Card2.reshape data = Ok (VDict ret) →
  (k, p) ∈ venue_sources →
  path data p = Ok v →
  ret !! k = Some v.
Proof.
  unfold Card2.reshape, venue_sources. intros H Hk Hv.
  invert_run; simplify_eq; invert_member Hk.
  all: first [ repeat same_read; reflexivity | venue_guard_contradiction Hv ].
Qed.

Lemma venue_fields_complete_witness :
  ∃ ret, Card2.reshape (venue_payload plain_venue) = Ok (VDict ret) ∧
         ret !! "city" = Some (VStr "Inglewood").
Proof.
  eexists. split; [reflexivity|].
  apply (venue_fields_complete (venue_payload plain_venue) _ _ _
           ["_embedded"; "venues"; 0; "city"; "name"]%path).
  - reflexivity.
  - vm_compute. do 3 apply list_elem_of_further. apply list_elem_of_here.
  - reflexivity.
Defined.

(** Apart from the optional [address], [city], [stateCode], [postal_code]
    and [url], a venue detail has exactly the three keys [venue], [logo]
    and [map]. *)
Theorem venue_keys (data : value) (ret : gmap string value) :
  Card2.reshape data = Ok (VDict ret) →
  dom ret ∖ {["address"; "city"; "stateCode"; "postal_code"; "url"]} =
  {["venue"; "logo"; "map"]}.
Proof.
  unfold Card2.reshape. intros H. invert_run; simplify_eq.
  all: rewrite !dom_insert_L, dom_empty_L; set_solver.
Qed.

Lemma venue_keys_witness :
  ∃ ret, Card2.reshape (venue_payload stateless_venue) = Ok (VDict ret) ∧
    dom ret ∖ {["address"; "city"; "stateCode"; "postal_code"; "url"]} =
    {["venue"; "logo"; "map"]}.
Proof.
  eexists. split; [reflexivity|].
  apply (venue_keys (venue_payload stateless_venue)). reflexivity.
Defined.

(** In a venue detail the venue's name is a string, and the map link is the
    search URL of the map service followed by that name, unescaped. *)
Theorem card2_map_link (data : value) (ret : gmap string value) :
  Card2.reshape data = Ok (VDict ret) →
  ∃ name,
    path data ["_embedded"; "venues"; 0; "name"] = Ok (VStr name) ∧
    ret !! "venue" = Some (VStr name) ∧
    ret !! "map" =
      Some (VStr ("https://www.google.com/maps/search/?api=&query=" +:+ name)).
Proof.
  unfold Card2.reshape. intros H. invert_run; simplify_eq.
  all: repeat match goal with
       | Hp : str_add _ _ = Ok _ |- _ => apply str_add_Ok in Hp as (? & -> & ->)
       | Hv : getitem (VDict _) "venue" = Ok _ |- _ =>
           vm_compute in Hv; injection Hv as ->
       end.
  all: eexists; split; [eassumption|]; split; reflexivity.
Qed.

Lemma card2_map_link_witness :
  ∃ ret, Card2.reshape (venue_payload plain_venue) = Ok (VDict ret) ∧
  ∃ name,
    path (venue_payload plain_venue) ["_embedded"; "venues"; 0; "name"] = Ok (VStr name) ∧
    ret !! "venue" = Some (VStr name) ∧
    ret !! "map" =
      Some (VStr ("https://www.google.com/maps/search/?api=&query=" +:+ name)).
Proof.
  eexists. split; [reflexivity|].
  apply (card2_map_link (venue_payload plain_venue)). reflexivity.
Defined.

(** A venue that has ['images'], ['address'] or ['city'] but not the nested
    value read under it ([images[0].url], [address.line1], [city.name])
    gets no response: the handler raises. *)
Theorem card2_guarded_field_incomplete (data : value)
    (venue : gmap string value) (k : string) (q : list key) :
  path data ["_embedded"; "venues"; 0] = Ok (VDict venue) →
  (k, q) ∈ venue_guarded →
  is_Some (venue !! k) →
  ¬ is_ok (path data (["_embedded"; "venues"; 0]%path ++ K k :: q)%list) →
  ∃ e, Card2.reshape data = Raise e.
Proof.
  intros Hvenue Hk Hpresent Hno.
  destruct (Card2.reshape data) as [r|e] eqn:H; [|by exists e].
  exfalso. unfold Card2.reshape, venue_guarded in *.
  invert_run; simplify_eq; invert_member Hk; simpl in Hno.
  all: first
    [ read_succeeded Hno
    | guard_contradiction Hvenue
    | guard_passed Hvenue ].
Qed.

Lemma card2_guarded_field_incomplete_witness :
  ∃ e, Card2.reshape (venue_payload unaddressed_venue) = Raise e.
Proof.
  apply (card2_guarded_field_incomplete _ unaddressed_venue "address" ["line1"]%path).
  - reflexivity.
  - vm_compute. apply list_elem_of_further, list_elem_of_here.
  - by eexists.
  - intros [v H]. vm_compute in H. discriminate H.
Defined.

(** A ['state'] without a ['stateCode'] is guarded twice and costs only the
    field. *)
Example card2_state_without_code :
  Card2.reshape (venue_payload stateless_venue) = Card2.reshape (venue_payload plain_venue).
Proof. reflexivity. Qed.
